(** * junction: the message middleware (lib/junction/middleware/message.js)

    A shallow embedding of the middleware that classifies message stanzas
    and emits them as events on a handler, together with the properties of
    its classification and dispatch.

    What the module leans on and does not define is modelled as follows.

    - The stanza (an XML element of the XMPP library) is reached through
      three queries only: [is] (written [is_] here, [is] being reserved),
      [getChild] and [attr].  They are the methods
      of the class [XMLElement]; [Element] is a concrete instance.
    - [Handler] inherits from Node's [EventEmitter].  The emitter keeps, for
      every event type, its listeners in the order of registration; [emit]
      calls them one after the other, synchronously, lets a listener's
      exception escape, and throws by itself when an event of type "error"
      has no listener.
    - Callbacks (the setup function, the listeners, [next]) are code of the
      application: they act on a state [World] of their own and either
      return or raise.  Listeners are registered during the setup callback;
      the listener table is not changed while a stanza is dispatched.
    - Every call that leaves the module (the setup function, [emit], a
      listener, [next]) is recorded in a trace, so that "is invoked",
      "exactly once" and "before" can be stated. *)

From Stdlib Require Import String List Bool Arith Lia.
Import ListNotations.
Open Scope string_scope.
Open Scope list_scope.

Set Implicit Arguments.
Set Warnings "-register-all".

(** ** Stanzas *)

(** The three methods of an XML element the middleware calls.  [getChild]
    answers the first child of that name or [None] (JavaScript's
    [undefined]); [attr] answers the attribute's value or [None]. *)
Class XMLElement (E : Type) : Type := {
  is_ : E -> string -> bool;
  getChild : E -> string -> option E;
  attr : E -> string -> option string
}.

(** A concrete element: a name, attributes and child elements. *)
Inductive Element : Type :=
| Elem (name : string) (attrs : list (string * string)) (children : list Element).

Definition elem_name (e : Element) : string :=
  match e with Elem n _ _ => n end.

Definition elem_attrs (e : Element) : list (string * string) :=
  match e with Elem _ a _ => a end.

Definition elem_children (e : Element) : list Element :=
  match e with Elem _ _ c => c end.

Fixpoint assoc (k : string) (l : list (string * string)) : option string :=
  match l with
  | [] => None
  | (k', v) :: rest => if k' =? k then Some v else assoc k rest
  end.

#[export] Instance Element_XMLElement : XMLElement Element := {
  is_ e n := elem_name e =? n;
  getChild e n := find (fun c => elem_name c =? n) (elem_children e);
  attr e k := assoc k (elem_attrs e)
}.

(** ** JavaScript truthiness of the two kinds of value that are tested *)

(** An object is truthy, [undefined] is falsy. *)
Definition truthy_object {A : Type} (v : option A) : bool :=
  match v with
  | Some _ => true
  | None => false
  end.

(** A string is truthy unless it is empty; [undefined] is falsy. *)
Definition truthy_string (v : option string) : bool :=
  match v with
  | Some s => negb (s =? "")
  | None => false
  end.

(** [v == 'error'] for a value that is a string or [undefined]. *)
Definition loose_eq (v : option string) (s : string) : bool :=
  match v with
  | Some t => t =? s
  | None => false
  end.

(** The property key a value is turned into when it names an event:
    [undefined] becomes the string "undefined". *)
Definition property_key (v : option string) : string :=
  match v with
  | Some s => s
  | None => "undefined"
  end.

(** ** Exceptions *)

Inductive Exn : Type :=
| Error (message : string).

(** ** The middleware *)

Section Middleware.

Variable E : Type.
Context `{XMLElement E}.

(** The application's state, on which its callbacks act. *)
Variable World : Type.

(** What [next()] returns. *)
Variable R : Type.

(** *** Callbacks *)

Inductive outcome (A : Type) : Type :=
| Returns (a : A) (w : World)
| Raises (e : Exn) (w : World).

Definition Callback (A : Type) : Type := World -> outcome A.

(** *** Traces and the state of a run *)

Inductive Event : Type :=
| SetupCall
| Emit (type : string) (stanza : E)
| Invoke (type : string) (id : nat) (stanza : E)
| Proceed.

Record State : Type := mkState {
  world : World;
  trace : list Event
}.

Definition log (ev : Event) (st : State) : State :=
  {| world := world st; trace := trace st ++ [ev] |}.

(** *** Computations: state and exceptions *)

Inductive completion (A : Type) : Type :=
| Normal (a : A) (st : State)
| Throw (e : Exn) (st : State).

Definition Js (A : Type) : Type := State -> completion A.

Definition ret {A : Type} (a : A) : Js A := fun st => Normal a st.

Definition throw {A : Type} (e : Exn) : Js A := fun st => Throw A e st.

Definition bind {A B : Type} (c : Js A) (k : A -> Js B) : Js B :=
  fun st =>
    match c st with
    | Normal a st' => k a st'
    | Throw _ e st' => Throw B e st'
    end.

Definition final {A : Type} (r : completion A) : State :=
  match r with
  | Normal _ st => st
  | Throw _ _ st => st
  end.

(** Calling a callback: the call is recorded, then the callback runs on
    the application's state. *)
Definition call {A : Type} (ev : Event) (cb : Callback A) : Js A :=
  fun st =>
    match cb (world st) with
    | Returns a w => Normal a {| world := w; trace := trace st ++ [ev] |}
    | Raises _ e w => Throw A e {| world := w; trace := trace st ++ [ev] |}
    end.

Notation "x <- c1 ;; c2" := (bind c1 (fun x => c2))
  (at level 100, c1 at next level, right associativity).
Notation "c1 ;; c2" := (bind c1 (fun _ => c2))
  (at level 100, right associativity).

(** *** The handler: an event emitter *)

(** A listener is a callback of the application; [lid] names it in the
    trace. *)
Record Listener : Type := mkListener {
  lid : nat;
  run : E -> Callback unit
}.

(** The listener table, in the order of registration. *)
Definition Handler : Type := list (string * Listener).

Definition Handler_new : Handler := [].

(** [handler.on(type, listener)]. *)
Definition on (type : string) (listener : Listener) (this : Handler) : Handler :=
  this ++ [(type, listener)].

(** The listeners of one event type, in the order of registration. *)
Definition listeners (this : Handler) (type : string) : list Listener :=
  map snd (filter (fun p => fst p =? type) this).

Fixpoint call_listeners (type : string) (ls : list Listener) (stanza : E)
  : Js unit :=
  match ls with
  | [] => ret tt
  | l :: rest =>
      call (Invoke type (lid l) stanza) (run l stanza) ;;
      call_listeners type rest stanza
  end.

(** [this.emit(type, stanza)]: answers whether the event had listeners.
    An "error" event without listeners throws. *)
Definition emit (this : Handler) (type : string) (stanza : E) : Js bool :=
  fun st =>
    let st := log (Emit type stanza) st in
    match listeners this type with
    | [] =>
        if type =? "error"
        then throw (Error "Uncaught, unspecified 'error' event.") st
        else ret false st
    | ls => (call_listeners type ls stanza ;; ret true) st
    end.

(** *** Handler.prototype._handle *)

Definition _handle (this : Handler) (stanza : E) : Js unit :=
  if truthy_object (getChild stanza "composing") then
    (emit this "composing" stanza ;; ret tt)
  else if truthy_object (getChild stanza "paused") then
    (emit this "paused" stanza ;; ret tt)
  else if negb (truthy_string (attr stanza "type")) then
    (emit this "normal" stanza ;; ret tt)
  else if loose_eq (attr stanza "type") "error" then
    (emit this "err" stanza ;; ret tt)
  else
    (emit this (property_key (attr stanza "type")) stanza ;; ret tt).

(** *** module.exports = function message(fn) *)

(** The setup callback receives the handler and registers listeners on
    it; what it answers is the handler as it left it. *)
Definition SetupFn : Type := Handler -> Callback Handler.

(** The function that [message] returns (it is named [message] too). *)
Definition message_stage (handler : Handler) (stanza : E) (next : Callback R)
  : Js (option R) :=
  if negb (is_ stanza "message") then
    (r <- call Proceed next ;; ret (Some r))
  else
    (_handle handler stanza ;;
     call Proceed next ;;
     ret None).

(** [fn] is [None] when no callback is given. *)
Definition message (fn : option SetupFn)
  : Js (E -> Callback R -> Js (option R)) :=
  match fn with
  | None => throw (Error "message middleware requires a callback function")
  | Some fn =>
      let handler := Handler_new in
      (handler <- call SetupCall (fn handler) ;;
       ret (message_stage handler))
  end.

(** *** Reading a trace *)

(** The event types emitted, in order. *)
Fixpoint emitted (t : list Event) : list string :=
  match t with
  | [] => []
  | Emit type _ :: rest => type :: emitted rest
  | _ :: rest => emitted rest
  end.

(** The listeners invoked, in order, each with its payload. *)
Fixpoint invoked (t : list Event) : list (nat * E) :=
  match t with
  | [] => []
  | Invoke _ id stanza :: rest => (id, stanza) :: invoked rest
  | _ :: rest => invoked rest
  end.

(** How many times [next] was called. *)
Fixpoint proceeds (t : list Event) : nat :=
  match t with
  | [] => 0
  | Proceed :: rest => S (proceeds rest)
  | _ :: rest => proceeds rest
  end.

(** How many times the setup callback was called. *)
Fixpoint setups (t : list Event) : nat :=
  match t with
  | [] => 0
  | SetupCall :: rest => S (setups rest)
  | _ :: rest => setups rest
  end.

(** The trace entries of invoking [ls] for an emitted event. *)
Definition invocations (type : string) (stanza : E) (ls : list Listener)
  : list Event :=
  map (fun l => Invoke type (lid l) stanza) ls.

(** *** The category of a stanza *)

(** The event type under which [_handle] emits a stanza, spelled out
    case by case: a "composing" child, else a "paused" child, else a
    missing or empty "type", else "type" being "error", else the value
    of "type". *)
Definition category (stanza : E) : string :=
  match getChild stanza "composing" with
  | Some _ => "composing"
  | None =>
      match getChild stanza "paused" with
      | Some _ => "paused"
      | None =>
          match attr stanza "type" with
          | None => "normal"
          | Some t =>
              if t =? "" then "normal"
              else if t =? "error" then "err"
              else t
          end
      end
  end.

(** The same rule with "a missing type" read to the letter: only the
    absence of the attribute gives "normal", and every value other than
    "error" is forwarded as it is. *)
Definition literal_category (stanza : E) : string :=
  match getChild stanza "composing" with
  | Some _ => "composing"
  | None =>
      match getChild stanza "paused" with
      | Some _ => "paused"
      | None =>
          match attr stanza "type" with
          | None => "normal"
          | Some t => if t =? "error" then "err" else t
          end
      end
  end.

(** Two stanzas agree on what classification looks at. *)
Definition same_observations (s1 s2 : E) : Prop :=
  truthy_object (getChild s1 "composing") = truthy_object (getChild s2 "composing")
  /\ truthy_object (getChild s1 "paused") = truthy_object (getChild s2 "paused")
  /\ attr s1 "type" = attr s2 "type".

End Middleware.

Arguments SetupCall {E}.
Arguments Proceed {E}.
Arguments Throw [E World] {A} e st.
Arguments Raises [World] {A} e w.

Notation "x <- c1 ;; c2" := (bind c1 (fun x => c2))
  (at level 100, c1 at next level, right associativity).
Notation "c1 ;; c2" := (bind c1 (fun _ => c2))
  (at level 100, right associativity).

(** ** Sample stanzas, listeners and callbacks *)

Module Samples.

Definition chat : Element :=
  Elem "message" [("to", "juliet@example.com"); ("type", "chat")]
       [Elem "body" [] []].

Definition composing_chat : Element :=
  Elem "message" [("type", "chat")] [Elem "composing" [] []].

Definition paused_chat : Element :=
  Elem "message" [("type", "chat")] [Elem "paused" [] []].

Definition plain : Element :=
  Elem "message" [] [Elem "body" [] []].

Definition empty_type : Element :=
  Elem "message" [("type", "")] [Elem "body" [] []].

Definition error_type : Element :=
  Elem "message" [("type", "error")] [Elem "error" [] []].

Definition err_type : Element :=
  Elem "message" [("type", "err")] [].

Definition presence : Element :=
  Elem "presence" [("type", "unavailable")] [].

(** The application's state in the samples: the ids of the listeners
    that ran, as they noted them themselves. *)
Definition Notes : Type := list nat.

Definition noting (id : nat) : Listener Element Notes :=
  {| lid := id; run := fun _ w => Returns tt (w ++ [id]) |}.

Definition failing (id : nat) : Listener Element Notes :=
  {| lid := id; run := fun _ w => Raises (Error "listener failed") w |}.

Definition next_ok : Callback Notes nat := fun w => Returns 0 w.

Definition start : State Element Notes := {| world := []; trace := [] |}.

(** [handler.on('chat', A); handler.on('chat', B)] with A failing. *)
Definition failing_then_noting : Handler Element Notes :=
  on "chat" (noting 2) (on "chat" (failing 1) (Handler_new Element Notes)).

(** [handler.on('chat', A); handler.on('err', C); handler.on('chat', B)]. *)
Definition two_chat_listeners : Handler Element Notes :=
  on "chat" (noting 2)
     (on "err" (noting 3)
         (on "chat" (noting 1) (Handler_new Element Notes))).

(** [handler.on('chat', A)] and nothing else. *)
Definition chat_only : Handler Element Notes :=
  on "chat" (noting 1) (Handler_new Element Notes).

(** Three listeners for "chat", the second one failing. *)
Definition failing_in_the_middle : Handler Element Notes :=
  on "chat" (noting 3)
     (on "chat" (failing 2)
         (on "chat" (noting 1) (Handler_new Element Notes))).

Definition chat_from_romeo : Element :=
  Elem "message" [("from", "romeo@example.net"); ("type", "chat")] [].

Definition setup_two : SetupFn Element Notes :=
  fun handler w =>
    Returns (on "chat" (noting 2) (on "chat" (noting 1) handler)) w.

Definition next_failing : Callback Notes nat :=
  fun w => Raises (Error "next failed") w.

Definition headline : Element :=
  Elem "message" [("type", "headline")] [Elem "body" [] []].

(** A "type" that spells the name of a chat state, without the child. *)
Definition composing_type : Element :=
  Elem "message" [("type", "composing")] [].

Definition paused_type : Element :=
  Elem "message" [("type", "paused")] [].

Definition normal_type : Element :=
  Elem "message" [("type", "normal")] [Elem "body" [] []].

(** [handler.on('chat', A); handler.on('headline', B)]. *)
Definition chat_and_headline : Handler Element Notes :=
  on "headline" (noting 2) (on "chat" (noting 1) (Handler_new Element Notes)).

(** A listener that reads the stanza it is handed: it notes 1 when the
    "type" is "error" and 2 otherwise. *)
Definition reading_type (id : nat) : Listener Element Notes :=
  {| lid := id;
     run := fun stanza w =>
              Returns tt
                (w ++ [if loose_eq (attr stanza "type") "error" then 1 else 2]) |}.

(** [handler.on('err', A)] with A reading the stanza. *)
Definition err_reader : Handler Element Notes :=
  on "err" (reading_type 1) (Handler_new Element Notes).


End Samples.

(** ** Properties of the emitter and of classification *)

Section Properties.

Variable E : Type.
Context `{XMLElement E}.
Variables World R : Type.

Implicit Types (h : Handler E World) (s : E) (st : State E World).
Implicit Types (ls : list (Listener E World)) (ty : string).

(** *** Reading a trace, piecewise *)

Lemma emitted_app (t1 t2 : list (Event E)) :
  emitted (t1 ++ t2) = emitted t1 ++ emitted t2.
Proof.
  induction t1 as [|ev t1 IH]; simpl; [reflexivity|].
  destruct ev; simpl; rewrite IH; reflexivity.
Qed.

Lemma invoked_app (t1 t2 : list (Event E)) :
  invoked (t1 ++ t2) = invoked t1 ++ invoked t2.
Proof.
  induction t1 as [|ev t1 IH]; simpl; [reflexivity|].
  destruct ev; simpl; rewrite IH; reflexivity.
Qed.

Lemma proceeds_app (t1 t2 : list (Event E)) :
  proceeds (t1 ++ t2) = proceeds t1 + proceeds t2.
Proof.
  induction t1 as [|ev t1 IH]; simpl; [reflexivity|].
  destruct ev; simpl; rewrite IH; reflexivity.
Qed.

Lemma setups_app (t1 t2 : list (Event E)) :
  setups (t1 ++ t2) = setups t1 + setups t2.
Proof.
  induction t1 as [|ev t1 IH]; simpl; [reflexivity|].
  destruct ev; simpl; rewrite IH; reflexivity.
Qed.

Lemma emitted_invocations ty s ls : emitted (invocations ty s ls) = [].
Proof. induction ls; simpl; auto. Qed.

Lemma proceeds_invocations ty s ls : proceeds (invocations ty s ls) = 0.
Proof. induction ls; simpl; auto. Qed.

Lemma invoked_invocations ty s ls :
  invoked (invocations ty s ls) = map (fun l => (lid l, s)) ls.
Proof. induction ls; simpl; congruence. Qed.

Lemma invocations_app ty s ls1 ls2 :
  invocations ty s (ls1 ++ ls2) = invocations ty s ls1 ++ invocations ty s ls2.
Proof. apply map_app. Qed.

(** *** Registration *)

Lemma listeners_on h ty ty' (l : Listener E World) :
  listeners (on ty' l h) ty =
  listeners h ty ++ (if ty' =? ty then [l] else []).
Proof.
  unfold listeners, on. rewrite filter_app, map_app. simpl.
  destruct (ty' =? ty); reflexivity.
Qed.

(** *** Calling the listeners of an event *)

(** Whatever the listeners do, the trace grows by invocations of a
    prefix of them, in their order. *)
Lemma call_listeners_prefix ty ls s st :
  exists k, k <= length ls /\
    trace (final (call_listeners ty ls s st)) =
    trace st ++ invocations ty s (firstn k ls).
Proof.
  revert st. induction ls as [|l ls IH]; intros st.
  - exists 0. simpl. rewrite app_nil_r. auto.
  - simpl. unfold bind, call at 1.
    destruct (run l s (world st)) as [[] w|e w].
    + match goal with |- context [call_listeners ty ls s ?st1] =>
        destruct (IH st1) as [k [Hk Ht]] end.
      exists (S k). split; [simpl; lia|].
      rewrite Ht. simpl. rewrite <- app_assoc. reflexivity.
    + exists 1. split; [simpl; lia|]. reflexivity.
Qed.

(** When it completes, all of them were invoked. *)
Lemma call_listeners_normal_trace ty ls s st st' :
  call_listeners ty ls s st = Normal tt st' ->
  trace st' = trace st ++ invocations ty s ls.
Proof.
  revert st. induction ls as [|l ls IH]; intros st; simpl.
  - unfold ret. intros [= <-]. rewrite app_nil_r. reflexivity.
  - unfold bind, call at 1.
    destruct (run l s (world st)) as [[] w|e w]; [|discriminate].
    intros Hrest. apply IH in Hrest. rewrite Hrest. simpl.
    rewrite <- app_assoc. reflexivity.
Qed.

(** Listeners that return: all are invoked, in order. *)
Lemma call_listeners_returning ty ls s st :
  (forall l w, In l ls -> exists w', run l s w = Returns tt w') ->
  exists w',
    call_listeners ty ls s st =
    Normal tt {| world := w'; trace := trace st ++ invocations ty s ls |}.
Proof.
  revert st. induction ls as [|l ls IH]; intros st Hret; simpl.
  - exists (world st). unfold ret. rewrite app_nil_r. destruct st; reflexivity.
  - unfold bind, call at 1.
    destruct (Hret l (world st) (or_introl eq_refl)) as [w Hw]. rewrite Hw.
    match goal with |- context [call_listeners ty ls s ?st1] =>
      destruct (IH st1) as [w' Hw'] end.
    { intros l' w0 Hin. apply Hret. right. exact Hin. }
    exists w'. rewrite Hw'. simpl. rewrite <- app_assoc. reflexivity.
Qed.

(** A listener that raises ends the calls: the ones after it are not
    invoked and its exception escapes. *)
Lemma call_listeners_raising ty pre (l : Listener E World) post s st st1 e w :
  call_listeners ty pre s st = Normal tt st1 ->
  run l s (world st1) = Raises e w ->
  call_listeners ty (pre ++ l :: post) s st =
  Throw e {| world := w;
             trace := trace st ++ invocations ty s (pre ++ [l]) |}.
Proof.
  revert st. induction pre as [|p pre IH]; intros st; simpl.
  - unfold ret. intros [= <-] Hl. unfold bind, call. rewrite Hl. reflexivity.
  - unfold bind at 1 2. unfold call at 1 2.
    destruct (run p s (world st)) as [[] w0|e0 w0]; [|discriminate].
    intros Hpre Hl. rewrite (IH _ Hpre Hl). simpl.
    rewrite <- app_assoc. reflexivity.
Qed.

(** *** emit *)

Lemma final_then_ret (A B : Type) (c : Js E World A) (b : B) st :
  final ((c ;; ret b) st) = final (c st).
Proof. unfold bind, ret. destruct (c st); reflexivity. Qed.

Lemma emit_prefix h ty s st :
  exists k, k <= length (listeners h ty) /\
    trace (final (emit h ty s st)) =
    trace st ++ Emit ty s :: invocations ty s (firstn k (listeners h ty)).
Proof.
  unfold emit. destruct (listeners h ty) as [|l ls] eqn:Hls.
  - exists 0. split; [lia|].
    destruct (ty =? "error"); reflexivity.
  - rewrite final_then_ret.
    destruct (call_listeners_prefix ty (l :: ls) s (log (Emit ty s) st))
      as [k [Hk Ht]].
    exists k. split; [exact Hk|]. rewrite Ht. unfold log. simpl trace.
    rewrite <- app_assoc. reflexivity.
Qed.

(** One call of [emit] puts exactly one event type on the trace. *)
Lemma emit_emitted h ty s st :
  emitted (trace (final (emit h ty s st))) = emitted (trace st) ++ [ty].
Proof.
  destruct (emit_prefix h ty s st) as [k [_ Ht]]. rewrite Ht.
  rewrite emitted_app. simpl. rewrite emitted_invocations. reflexivity.
Qed.

(** An event without listeners, other than "error", is dropped. *)
Lemma emit_no_listeners h ty s st :
  listeners h ty = [] -> ty <> "error" ->
  emit h ty s st = Normal false (log (Emit ty s) st).
Proof.
  intros Hls Hty. unfold emit. rewrite Hls.
  apply String.eqb_neq in Hty. rewrite Hty. reflexivity.
Qed.

(** An event with listeners: they are called in turn. *)
Lemma emit_some_listeners h ty s st :
  listeners h ty <> [] ->
  emit h ty s st =
  (call_listeners ty (listeners h ty) s ;; ret true) (log (Emit ty s) st).
Proof.
  intros Hls. unfold emit.
  destruct (listeners h ty); [contradiction|reflexivity].
Qed.

(** *** _handle emits under the category *)

Lemma _handle_category h s :
  _handle h s = (emit h (category s) s ;; ret tt).
Proof.
  unfold _handle, category.
  destruct (getChild s "composing"); [reflexivity|].
  destruct (getChild s "paused"); [reflexivity|].
  destruct (attr s "type") as [t|]; [|reflexivity].
  unfold truthy_object, truthy_string, loose_eq, property_key.
  destruct (t =? ""); [reflexivity|].
  destruct (t =? "error"); reflexivity.
Qed.

Lemma category_not_error s : category s <> "error".
Proof.
  unfold category.
  destruct (getChild s "composing"); [discriminate|].
  destruct (getChild s "paused"); [discriminate|].
  destruct (attr s "type") as [t|]; [|discriminate].
  destruct (t =? ""); [discriminate|].
  destruct (t =? "error") eqn:Ht; [discriminate|].
  apply String.eqb_neq. exact Ht.
Qed.

Lemma _handle_emitted h s st :
  emitted (trace (final (_handle h s st))) = emitted (trace st) ++ [category s].
Proof.
  rewrite _handle_category, final_then_ret. apply emit_emitted.
Qed.

Lemma _handle_no_listeners h s st :
  listeners h (category s) = [] ->
  _handle h s st = Normal tt (log (Emit (category s) s) st).
Proof.
  intros Hls. rewrite _handle_category. unfold bind.
  rewrite (emit_no_listeners h s st Hls (category_not_error s)).
  reflexivity.
Qed.

Lemma category_no_markers s :
  getChild s "composing" = None -> getChild s "paused" = None ->
  category s =
  match attr s "type" with
  | None => "normal"
  | Some t => if t =? "" then "normal" else if t =? "error" then "err" else t
  end.
Proof. intros Hc Hp. unfold category. rewrite Hc, Hp. reflexivity. Qed.

(** *** The returned function on a message stanza *)

Lemma message_stage_message h s (next : Callback World R) :
  is_ s "message" = true ->
  message_stage h s next = (_handle h s ;; call Proceed next ;; ret None).
Proof. intros Hmsg. unfold message_stage. rewrite Hmsg. reflexivity. Qed.

(** *** Classification *)

(** C1 (as amended): a stanza whose root element is "message" is emitted
    under exactly one event type, chosen by the first rule that applies:
    a "composing" child gives "composing" whatever the "type"; else a
    "paused" child gives "paused"; else a "type" that is missing or is the
    empty string gives "normal"; else a "type" equal to "error" gives
    "err"; else the event type is the value of "type".  [next] is called
    after the dispatch. *)
Theorem C1_classification_precedence h s (next : Callback World R) st :
  is_ s "message" = true ->
  message_stage h s next st =
    (emit h (category s) s ;; call Proceed next ;; ret None) st
  /\ emitted (trace (final (message_stage h s next st))) =
     emitted (trace st) ++ [category s].
Proof.
  intros Hmsg. rewrite (message_stage_message h s next Hmsg).
  rewrite _handle_category.
  assert (Hem := emit_emitted h (category s) s st).
  unfold bind, ret in *.
  destruct (emit h (category s) s st) as [b st1|e st1]; simpl in Hem.
  - split; [reflexivity|].
    unfold call. destruct (next (world st1)); simpl;
      rewrite emitted_app, Hem; simpl; rewrite app_nil_r; reflexivity.
  - split; [reflexivity|]. exact Hem.
Qed.

(** C2: a stanza with "type" equal to "error" and neither a "composing"
    nor a "paused" child is emitted under "err" and under no other event
    type, so not under "error"; when nobody listens for "err" the
    dispatch completes without raising. *)
Theorem C2_error_type_is_err h s st :
  getChild s "composing" = None ->
  getChild s "paused" = None ->
  attr s "type" = Some "error" ->
  _handle h s st = (emit h "err" s ;; ret tt) st
  /\ emitted (trace (final (_handle h s st))) = emitted (trace st) ++ ["err"]
  /\ "err" <> "error"
  /\ (listeners h "err" = [] ->
      _handle h s st = Normal tt (log (Emit "err" s) st)).
Proof.
  intros Hc Hp Ht.
  assert (Hcat : category s = "err").
  { rewrite (category_no_markers s Hc Hp), Ht. reflexivity. }
  repeat split.
  - rewrite _handle_category, Hcat. reflexivity.
  - rewrite _handle_emitted, Hcat. reflexivity.
  - discriminate.
  - intros Hls. rewrite <- Hcat in *. apply _handle_no_listeners. exact Hls.
Qed.

(** C8: the event type depends on the stanza alone, through the presence
    of a "composing" child, the presence of a "paused" child and the value
    of "type": two stanzas that agree on these are emitted under the same
    type, whatever the handlers and the states in which they are handled;
    and classification changes no state: what [_handle] does is what the
    one [emit] does, and with no listener for the type the application's
    state is left as it was. *)
Theorem C8_classification_stateless s1 s2 :
  same_observations s1 s2 ->
  category s1 = category s2
  /\ (forall h1 h2 st1 st2,
        emitted (trace (final (_handle h1 s1 st1))) =
          emitted (trace st1) ++ [category s1]
        /\ emitted (trace (final (_handle h2 s2 st2))) =
          emitted (trace st2) ++ [category s1])
  /\ (forall h st, _handle h s1 st = (emit h (category s1) s1 ;; ret tt) st)
  /\ (forall h st, listeners h (category s1) = [] ->
        world (final (_handle h s1 st)) = world st).
Proof.
  intros [Hc [Hp Ht]].
  assert (Hcat : category s1 = category s2).
  { unfold category. rewrite <- Ht.
    destruct (getChild s1 "composing"), (getChild s2 "composing");
      try discriminate Hc; [reflexivity|].
    destruct (getChild s1 "paused"), (getChild s2 "paused");
      try discriminate Hp; reflexivity. }
  split; [exact Hcat|]. split; [|split].
  - intros h1 h2 st1 st2. split.
    + apply _handle_emitted.
    + rewrite Hcat. apply _handle_emitted.
  - intros h st. rewrite _handle_category. reflexivity.
  - intros h st Hls. rewrite (_handle_no_listeners h s1 st Hls). reflexivity.
Qed.

(** C9: a stanza without "composing" and "paused" children whose "type"
    is present and is the empty string is emitted under "normal", as a
    stanza without the attribute is, and not under the empty string. *)
Theorem C9_empty_type_is_normal h s s' st :
  getChild s "composing" = None ->
  getChild s "paused" = None ->
  attr s "type" = Some "" ->
  getChild s' "composing" = None ->
  getChild s' "paused" = None ->
  attr s' "type" = None ->
  _handle h s st = (emit h "normal" s ;; ret tt) st
  /\ _handle h s' st = (emit h "normal" s' ;; ret tt) st
  /\ emitted (trace (final (_handle h s st))) = emitted (trace st) ++ ["normal"]
  /\ emitted (trace (final (_handle h s' st))) = emitted (trace st) ++ ["normal"].
Proof.
  intros Hc Hp Ht Hc' Hp' Ht'.
  assert (Hcat : category s = "normal").
  { rewrite (category_no_markers s Hc Hp), Ht. reflexivity. }
  assert (Hcat' : category s' = "normal").
  { rewrite (category_no_markers s' Hc' Hp'), Ht'. reflexivity. }
  repeat split.
  - rewrite _handle_category, Hcat. reflexivity.
  - rewrite _handle_category, Hcat'. reflexivity.
  - rewrite _handle_emitted, Hcat. reflexivity.
  - rewrite _handle_emitted, Hcat'. reflexivity.
Qed.

(** C10 (as amended): a stanza without "composing" and "paused" children
    whose "type" is the string "err" is emitted under "err", the event type
    under which a stanza with "type" equal to "error" is emitted: both
    reach the listeners registered for "err", in the order of registration,
    so the event type alone does not tell them apart.  Each is handed to
    the listeners as it is, and the two still differ in their "type". *)
Theorem C10_err_type_shares_err h s s' st :
  getChild s "composing" = None ->
  getChild s "paused" = None ->
  attr s "type" = Some "err" ->
  getChild s' "composing" = None ->
  getChild s' "paused" = None ->
  attr s' "type" = Some "error" ->
  _handle h s st = (emit h "err" s ;; ret tt) st
  /\ _handle h s' st = (emit h "err" s' ;; ret tt) st
  /\ emitted (trace (final (_handle h s st))) = emitted (trace st) ++ ["err"]
  /\ emitted (trace (final (_handle h s' st))) = emitted (trace st) ++ ["err"]
  /\ (exists k, k <= length (listeners h "err") /\
        trace (final (_handle h s st)) =
        trace st ++ Emit "err" s
          :: invocations "err" s (firstn k (listeners h "err")))
  /\ (exists k, k <= length (listeners h "err") /\
        trace (final (_handle h s' st)) =
        trace st ++ Emit "err" s'
          :: invocations "err" s' (firstn k (listeners h "err")))
  /\ attr s "type" <> attr s' "type".
Proof.
  intros Hc Hp Ht Hc' Hp' Ht'.
  assert (Hcat : category s = "err").
  { rewrite (category_no_markers s Hc Hp), Ht. reflexivity. }
  assert (Hcat' : category s' = "err").
  { rewrite (category_no_markers s' Hc' Hp'), Ht'. reflexivity. }
  split; [rewrite _handle_category, Hcat; reflexivity|].
  split; [rewrite _handle_category, Hcat'; reflexivity|].
  split; [rewrite _handle_emitted, Hcat; reflexivity|].
  split; [rewrite _handle_emitted, Hcat'; reflexivity|].
  split; [rewrite _handle_category, Hcat, final_then_ret; apply emit_prefix|].
  split; [rewrite _handle_category, Hcat', final_then_ret; apply emit_prefix|].
  rewrite Ht, Ht'. discriminate.
Qed.

(** *** Dispatch and the pipeline *)

(** Whatever the listeners do, [_handle] invokes a prefix of the
    listeners of the category, in the order of their registration. *)
Lemma _handle_invokes_prefix h s st :
  exists k, k <= length (listeners h (category s)) /\
    trace (final (_handle h s st)) =
    trace st ++ Emit (category s) s
      :: invocations (category s) s (firstn k (listeners h (category s))).
Proof.
  rewrite _handle_category, final_then_ret. apply emit_prefix.
Qed.

(** C3 (as amended): when a listener raises while a message stanza is
    dispatched, the listeners registered before it for the event type
    having returned, its exception escapes from the returned function to
    its caller; the listeners registered after it are not invoked and
    [next] is not called: the trace ends with the invocation of the
    listener that raised. *)
Theorem C3_listener_exception_escapes h s (next : Callback World R) st
    pre (l : Listener E World) post st1 e w :
  is_ s "message" = true ->
  listeners h (category s) = pre ++ l :: post ->
  call_listeners (category s) pre s (log (Emit (category s) s) st) =
    Normal tt st1 ->
  run l s (world st1) = Raises e w ->
  message_stage h s next st =
    Throw e {| world := w;
               trace := trace st ++ Emit (category s) s
                          :: invocations (category s) s (pre ++ [l]) |}
  /\ proceeds (trace (final (message_stage h s next st))) = proceeds (trace st).
Proof.
  intros Hmsg Hls Hpre Hl.
  assert (Hrun : message_stage h s next st =
    Throw e {| world := w;
               trace := trace st ++ Emit (category s) s
                          :: invocations (category s) s (pre ++ [l]) |}).
  { rewrite (message_stage_message h s next Hmsg), _handle_category.
    unfold bind. rewrite emit_some_listeners.
    - rewrite Hls. unfold bind.
      rewrite (call_listeners_raising (category s) pre l post s _ Hpre Hl).
      unfold log. simpl trace. rewrite <- app_assoc. reflexivity.
    - rewrite Hls. destruct pre; discriminate. }
  split; [exact Hrun|].
  rewrite Hrun. simpl. rewrite proceeds_app. simpl.
  rewrite proceeds_invocations. lia.
Qed.

(** C4: without a setup function [message] throws at once, in the state
    in which it was called: the setup phase has not run and no function
    that could process a stanza is returned.  With a setup function, the
    function is called exactly once before [message] returns, and what
    [message] does is decided by that one call. *)
Theorem C4_setup_required_and_called_once (fn : SetupFn E World) st :
  message R None st =
    Throw (Error "message middleware requires a callback function") st
  /\ message R (Some fn) st =
     match fn (Handler_new E World) (world st) with
     | Returns handler w =>
         Normal (message_stage (R:=R) handler)
                {| world := w; trace := trace st ++ [SetupCall] |}
     | Raises e w =>
         Throw e {| world := w; trace := trace st ++ [SetupCall] |}
     end
  /\ trace (final (message R (Some fn) st)) = trace st ++ [SetupCall]
  /\ setups (trace (final (message R (Some fn) st))) = setups (trace st) + 1.
Proof.
  assert (Hrun : message R (Some fn) st =
     match fn (Handler_new E World) (world st) with
     | Returns handler w =>
         Normal (message_stage (R:=R) handler)
                {| world := w; trace := trace st ++ [SetupCall] |}
     | Raises e w =>
         Throw e {| world := w; trace := trace st ++ [SetupCall] |}
     end).
  { unfold message, bind, call, ret.
    destruct (fn (Handler_new E World) (world st)); reflexivity. }
  assert (Htr : trace (final (message R (Some fn) st)) = trace st ++ [SetupCall]).
  { rewrite Hrun. destruct (fn (Handler_new E World) (world st)); reflexivity. }
  repeat split.
  - exact Hrun.
  - exact Htr.
  - rewrite Htr, setups_app. reflexivity.
Qed.

(** C5: a stanza whose root element is not "message" is neither
    classified nor dispatched: the returned function does nothing but
    call [next], once, and answers what [next] answers. *)
Theorem C5_not_a_message_passes_through h s (next : Callback World R) st :
  is_ s "message" = false ->
  message_stage h s next st = (r <- call Proceed next ;; ret (Some r)) st
  /\ trace (final (message_stage h s next st)) = trace st ++ [Proceed]
  /\ emitted (trace (final (message_stage h s next st))) = emitted (trace st)
  /\ invoked (trace (final (message_stage h s next st))) = invoked (trace st)
  /\ proceeds (trace (final (message_stage h s next st))) =
     proceeds (trace st) + 1.
Proof.
  intros Hmsg.
  assert (Htr : trace (final (message_stage h s next st)) =
                trace st ++ [Proceed]).
  { unfold message_stage. rewrite Hmsg. simpl.
    unfold bind, call, ret. destruct (next (world st)); reflexivity. }
  split; [unfold message_stage; rewrite Hmsg; reflexivity|].
  split; [exact Htr|]. rewrite Htr.
  rewrite emitted_app, invoked_app, proceeds_app. simpl.
  rewrite !app_nil_r. auto.
Qed.

(** C6 (as amended): when none of the listeners registered for the
    stanza's event type raises, [_handle] invokes every one of them with
    the stanza, in the order in which they were registered, and nothing
    else; a listener registered after another for the same type comes
    after it in that order. *)
Theorem C6_registration_order h s st :
  (forall l w, In l (listeners h (category s)) ->
               exists w', run l s w = Returns tt w') ->
  (exists w',
      _handle h s st =
      Normal tt {| world := w';
                   trace := trace st ++ Emit (category s) s
                              :: invocations (category s) s
                                   (listeners h (category s)) |})
  /\ (forall h0 ty (a b : Listener E World),
        listeners (on ty b (on ty a h0)) ty = listeners h0 ty ++ [a; b]).
Proof.
  intros Hret. split.
  - destruct (listeners h (category s)) as [|l ls] eqn:Hls.
    + exists (world st). rewrite (_handle_no_listeners h s st Hls).
      reflexivity.
    + rewrite _handle_category. unfold bind at 1.
      rewrite emit_some_listeners by (rewrite Hls; discriminate).
      rewrite Hls. unfold bind.
      destruct (call_listeners_returning (category s) (l :: ls) s
                  (log (Emit (category s) s) st) Hret) as [w' Hw'].
      exists w'. rewrite Hw'. unfold ret, log. simpl trace.
      rewrite <- app_assoc. reflexivity.
  - intros h0 ty a b. rewrite !listeners_on, String.eqb_refl.
    rewrite <- app_assoc. reflexivity.
Qed.

(** C7: when no listener is registered for the event type of a message
    stanza (for "err" as for any other), the dispatch completes without
    raising and invokes nobody, the application's state is untouched,
    and [next] is called as it would have been: once, right after. *)
Theorem C7_no_subscriber_silent_drop h s (next : Callback World R) st :
  is_ s "message" = true ->
  listeners h (category s) = [] ->
  _handle h s st = Normal tt (log (Emit (category s) s) st)
  /\ message_stage h s next st =
     (call Proceed next ;; ret None) (log (Emit (category s) s) st)
  /\ trace (final (message_stage h s next st)) =
     trace st ++ [Emit (category s) s; Proceed]
  /\ invoked (trace (final (message_stage h s next st))) = invoked (trace st)
  /\ proceeds (trace (final (message_stage h s next st))) =
     proceeds (trace st) + 1.
Proof.
  intros Hmsg Hls.
  assert (Hh := _handle_no_listeners h s st Hls).
  assert (Hstage : message_stage h s next st =
            (call Proceed next ;; ret None) (log (Emit (category s) s) st)).
  { rewrite (message_stage_message h s next Hmsg).
    unfold bind at 1. rewrite Hh. reflexivity. }
  assert (Htr : trace (final (message_stage h s next st)) =
                trace st ++ [Emit (category s) s; Proceed]).
  { rewrite Hstage. unfold bind, call, ret, log. simpl world. simpl trace.
    destruct (next (world st)); simpl; rewrite <- app_assoc; reflexivity. }
  split; [exact Hh|]. split; [exact Hstage|]. split; [exact Htr|].
  rewrite Htr, invoked_app, proceeds_app. simpl.
  rewrite app_nil_r. auto.
Qed.

End Properties.

(** ** The properties on sample stanzas *)

Section OnSamples.

Import Samples.

Lemma C1_witness :
  is_ composing_chat "message" = true
  /\ (message_stage two_chat_listeners composing_chat next_ok start =
        (emit two_chat_listeners "composing" composing_chat ;;
         call Proceed next_ok ;; ret None) start
      /\ emitted (trace (final (message_stage two_chat_listeners
                                  composing_chat next_ok start))) =
         ["composing"]).
Proof.
  split; [reflexivity|].
  exact (C1_classification_precedence two_chat_listeners composing_chat
           next_ok start eq_refl).
Defined.

(** C1, as it was stated, fails on a "type" that is present and empty:
    the value of the attribute is the empty string, the stanza is emitted
    under "normal". *)
Lemma C1_counterexample :
  is_ empty_type "message" = true
  /\ getChild empty_type "composing" = None
  /\ getChild empty_type "paused" = None
  /\ attr empty_type "type" = Some ""
  /\ literal_category empty_type = ""
  /\ emitted (trace (final (message_stage (Handler_new Element Notes)
                              empty_type next_ok start))) = ["normal"]
  /\ ~ (forall (s : Element) h (st : State Element Notes),
          is_ s "message" = true ->
          emitted (trace (final (message_stage h s next_ok st))) =
          emitted (trace st) ++ [literal_category s]).
Proof.
  repeat split; try reflexivity.
  intros Hall.
  specialize (Hall empty_type (Handler_new Element Notes) start eq_refl).
  vm_compute in Hall. discriminate Hall.
Qed.

Lemma C2_witness :
  getChild error_type "composing" = None
  /\ getChild error_type "paused" = None
  /\ attr error_type "type" = Some "error"
  /\ (_handle chat_only error_type start =
        (emit chat_only "err" error_type ;; ret tt) start
      /\ emitted (trace (final (_handle chat_only error_type start))) =
         ["err"]
      /\ "err" <> "error"
      /\ _handle chat_only error_type start =
         Normal tt {| world := []; trace := [Emit "err" error_type] |}).
Proof.
  assert (Hc : getChild error_type "composing" = None) by reflexivity.
  assert (Hp : getChild error_type "paused" = None) by reflexivity.
  assert (Ht : attr error_type "type" = Some "error") by reflexivity.
  do 3 (split; [assumption|]).
  destruct (C2_error_type_is_err chat_only error_type start Hc Hp Ht)
    as [Hemit [Htrace [Hname Hdrop]]].
  split; [exact Hemit|]. split; [exact Htrace|]. split; [exact Hname|].
  apply Hdrop. reflexivity.
Defined.

Lemma C3_witness :
  is_ chat "message" = true
  /\ listeners failing_in_the_middle (category chat) =
     [noting 1] ++ failing 2 :: [noting 3]
  /\ call_listeners (category chat) [noting 1] chat
       (log (Emit (category chat) chat) start) =
     Normal tt {| world := [1];
                  trace := [Emit "chat" chat; Invoke "chat" 1 chat] |}
  /\ run (failing 2) chat [1] = Raises (Error "listener failed") [1]
  /\ (message_stage failing_in_the_middle chat next_ok start =
        Throw (Error "listener failed")
              {| world := [1];
                 trace := [Emit "chat" chat; Invoke "chat" 1 chat;
                           Invoke "chat" 2 chat] |}
      /\ proceeds (trace (final (message_stage failing_in_the_middle chat
                                   next_ok start))) = 0).
Proof.
  do 4 (split; [reflexivity|]).
  exact (C3_listener_exception_escapes failing_in_the_middle chat next_ok
           start [noting 1] (failing 2) [noting 3]
           (st1 := {| world := [1];
                      trace := [Emit "chat" chat; Invoke "chat" 1 chat] |})
           eq_refl eq_refl eq_refl eq_refl).
Defined.

(** C3, as it was stated, fails when the first of two listeners raises:
    the exception reaches the caller, the second listener is not invoked
    and [next] is not called. *)
Lemma C3_counterexample :
  is_ chat "message" = true
  /\ listeners failing_then_noting (category chat) = [failing 1; noting 2]
  /\ message_stage failing_then_noting chat next_ok start =
     Throw (Error "listener failed")
           {| world := [];
              trace := [Emit "chat" chat; Invoke "chat" 1 chat] |}
  /\ invoked (trace (final (message_stage failing_then_noting chat
                              next_ok start))) = [(1, chat)]
  /\ proceeds (trace (final (message_stage failing_then_noting chat
                               next_ok start))) = 0.
Proof. repeat split. Qed.

Lemma C5_witness :
  is_ presence "message" = false
  /\ (message_stage two_chat_listeners presence next_ok start =
        (r <- call Proceed next_ok ;; ret (Some r)) start
      /\ trace (final (message_stage two_chat_listeners presence
                         next_ok start)) = [Proceed]
      /\ emitted (trace (final (message_stage two_chat_listeners presence
                                  next_ok start))) = []
      /\ invoked (trace (final (message_stage two_chat_listeners presence
                                  next_ok start))) = []
      /\ proceeds (trace (final (message_stage two_chat_listeners presence
                                   next_ok start))) = 1).
Proof.
  split; [reflexivity|].
  exact (C5_not_a_message_passes_through two_chat_listeners presence
           next_ok start eq_refl).
Defined.

Lemma C6_witness :
  (forall l w, In l (listeners two_chat_listeners (category chat)) ->
               exists w', run l chat w = Returns tt w')
  /\ ((exists w',
         _handle two_chat_listeners chat start =
         Normal tt {| world := w';
                      trace := [Emit "chat" chat; Invoke "chat" 1 chat;
                                Invoke "chat" 2 chat] |})
      /\ (forall h0 ty (a b : Listener Element Notes),
            listeners (on ty b (on ty a h0)) ty = listeners h0 ty ++ [a; b])).
Proof.
  assert (Hret : forall l w,
             In l (listeners two_chat_listeners (category chat)) ->
             exists w', run l chat w = Returns tt w').
  { intros l w Hin. simpl in Hin.
    destruct Hin as [<-|[<-|[]]]; eexists; reflexivity. }
  split; [exact Hret|].
  exact (C6_registration_order two_chat_listeners chat start Hret).
Defined.

(** C6, as it was stated, fails when a listener raises: the listener
    registered after it for the same event type is not invoked. *)
Lemma C6_counterexample :
  listeners failing_then_noting (category chat) = [failing 1; noting 2]
  /\ _handle failing_then_noting chat start =
     Throw (Error "listener failed")
           {| world := [];
              trace := [Emit "chat" chat; Invoke "chat" 1 chat] |}
  /\ ~ In (2, chat)
          (invoked (trace (final (_handle failing_then_noting chat start)))).
Proof.
  repeat split.
  simpl. intros [Heq|[]]. discriminate Heq.
Qed.

Lemma C7_witness :
  is_ error_type "message" = true
  /\ listeners chat_only (category error_type) = []
  /\ (_handle chat_only error_type start =
        Normal tt (log (Emit "err" error_type) start)
      /\ message_stage chat_only error_type next_ok start =
         (call Proceed next_ok ;; ret None) (log (Emit "err" error_type) start)
      /\ trace (final (message_stage chat_only error_type next_ok start)) =
         [Emit "err" error_type; Proceed]
      /\ invoked (trace (final (message_stage chat_only error_type
                                  next_ok start))) = []
      /\ proceeds (trace (final (message_stage chat_only error_type
                                   next_ok start))) = 1).
Proof.
  do 2 (split; [reflexivity|]).
  exact (C7_no_subscriber_silent_drop chat_only error_type next_ok start
           eq_refl eq_refl).
Defined.

Lemma C8_witness :
  same_observations chat chat_from_romeo
  /\ (category chat = category chat_from_romeo
      /\ (forall h1 h2 (st1 st2 : State Element Notes),
            emitted (trace (final (_handle h1 chat st1))) =
              emitted (trace st1) ++ ["chat"]
            /\ emitted (trace (final (_handle h2 chat_from_romeo st2))) =
              emitted (trace st2) ++ ["chat"])
      /\ (forall h (st : State Element Notes),
            _handle h chat st = (emit h "chat" chat ;; ret tt) st)
      /\ (forall h (st : State Element Notes),
            listeners h "chat" = [] ->
            world (final (_handle h chat st)) = world st)).
Proof.
  assert (Hobs : same_observations chat chat_from_romeo).
  { repeat split. }
  split; [exact Hobs|].
  exact (@C8_classification_stateless Element _ Notes chat chat_from_romeo
           Hobs).
Defined.

Lemma C9_witness :
  getChild empty_type "composing" = None
  /\ getChild empty_type "paused" = None
  /\ attr empty_type "type" = Some ""
  /\ getChild plain "composing" = None
  /\ getChild plain "paused" = None
  /\ attr plain "type" = None
  /\ (_handle chat_only empty_type start =
        (emit chat_only "normal" empty_type ;; ret tt) start
      /\ _handle chat_only plain start =
         (emit chat_only "normal" plain ;; ret tt) start
      /\ emitted (trace (final (_handle chat_only empty_type start))) =
         ["normal"]
      /\ emitted (trace (final (_handle chat_only plain start))) =
         ["normal"]).
Proof.
  do 6 (split; [reflexivity|]).
  exact (C9_empty_type_is_normal chat_only empty_type plain start
           eq_refl eq_refl eq_refl eq_refl eq_refl eq_refl).
Defined.

Lemma C10_witness :
  getChild err_type "composing" = None
  /\ getChild err_type "paused" = None
  /\ attr err_type "type" = Some "err"
  /\ getChild error_type "composing" = None
  /\ getChild error_type "paused" = None
  /\ attr error_type "type" = Some "error"
  /\ (_handle two_chat_listeners err_type start =
        (emit two_chat_listeners "err" err_type ;; ret tt) start
      /\ _handle two_chat_listeners error_type start =
         (emit two_chat_listeners "err" error_type ;; ret tt) start
      /\ emitted (trace (final (_handle two_chat_listeners err_type start))) =
         ["err"]
      /\ emitted (trace (final (_handle two_chat_listeners error_type start))) =
         ["err"]
      /\ (exists k, k <= length (listeners two_chat_listeners "err") /\
            trace (final (_handle two_chat_listeners err_type start)) =
            trace start ++ Emit "err" err_type
              :: invocations "err" err_type
                   (firstn k (listeners two_chat_listeners "err")))
      /\ (exists k, k <= length (listeners two_chat_listeners "err") /\
            trace (final (_handle two_chat_listeners error_type start)) =
            trace start ++ Emit "err" error_type
              :: invocations "err" error_type
                   (firstn k (listeners two_chat_listeners "err")))
      /\ attr err_type "type" <> attr error_type "type").
Proof.
  do 6 (split; [reflexivity|]).
  exact (C10_err_type_shares_err two_chat_listeners err_type error_type start
           eq_refl eq_refl eq_refl eq_refl eq_refl eq_refl).
Defined.

(** C10, as it was stated, fails for a listener that reads the stanza it
    is handed: registered for "err", it notes 2 for the stanza with "type"
    "err" and 1 for the one with "type" "error", although both are emitted
    under "err". *)
Lemma C10_counterexample :
  getChild err_type "composing" = None
  /\ getChild err_type "paused" = None
  /\ attr err_type "type" = Some "err"
  /\ getChild error_type "composing" = None
  /\ getChild error_type "paused" = None
  /\ attr error_type "type" = Some "error"
  /\ listeners err_reader "err" = [reading_type 1]
  /\ _handle err_reader err_type start =
     Normal tt {| world := [2];
                  trace := [Emit "err" err_type; Invoke "err" 1 err_type] |}
  /\ _handle err_reader error_type start =
     Normal tt {| world := [1];
                  trace := [Emit "err" error_type; Invoke "err" 1 error_type] |}
  /\ world (final (_handle err_reader err_type start)) <>
     world (final (_handle err_reader error_type start)).
Proof.
  do 9 (split; [reflexivity|]).
  simpl. discriminate.
Qed.

(** From construction to the dispatch of one stanza. *)
Example message_then_chat :
  match message nat (Some setup_two) start with
  | Normal stage st => trace (final (stage chat next_ok st))
  | Throw _ _ => []
  end =
  [SetupCall; Emit "chat" chat; Invoke "chat" 1 chat; Invoke "chat" 2 chat;
   Proceed].
Proof. reflexivity. Qed.

Example message_without_callback :
  message nat (World:=Notes) (E:=Element) None start =
  Throw (Error "message middleware requires a callback function") start.
Proof. reflexivity. Qed.

End OnSamples.


(** ** What follows for the users of the middleware *)

Section Consequences.

Variable E : Type.
Context `{XMLElement E}.
Variables World R : Type.

Implicit Types (h : Handler E World) (s : E) (st : State E World).
Implicit Types (ls : list (Listener E World)) (ty : string).

(** *** Where an exception comes from *)

Lemma call_listeners_throw_origin ty ls s st e st' :
  call_listeners ty ls s st = Throw e st' ->
  exists l w, In l ls /\ run l s w = Raises e (world st').
Proof.
  revert st. induction ls as [|l ls IH]; intros st; simpl.
  - unfold ret. discriminate.
  - unfold bind, call at 1.
    destruct (run l s (world st)) as [[] w|e0 w] eqn:Hl.
    + intros Hrest. destruct (IH _ Hrest) as [l' [w' [Hin Hr]]].
      exists l', w'. split; [right; exact Hin | exact Hr].
    + intros [= <- <-]. exists l, (world st). split; [left; reflexivity|].
      exact Hl.
Qed.

Lemma _handle_throw_origin h s st e st' :
  _handle h s st = Throw e st' ->
  exists l w, In l (listeners h (category s)) /\
              run l s w = Raises e (world st').
Proof.
  rewrite _handle_category. unfold bind.
  destruct (listeners h (category s)) as [|l ls] eqn:Hls.
  - rewrite (emit_no_listeners h s st Hls (category_not_error s)).
    unfold ret. discriminate.
  - rewrite emit_some_listeners by (rewrite Hls; discriminate).
    rewrite Hls. unfold bind.
    destruct (call_listeners (category s) (l :: ls) s
                (log (Emit (category s) s) st)) as [[] st1|e1 st1] eqn:Hcall.
    + unfold ret. discriminate.
    + intros [= <- <-].
      exact (call_listeners_throw_origin _ _ _ _ Hcall).
Qed.

(** X1: [_handle] raises nothing of its own: when it throws, a listener
    registered for the stanza's event type raised that exception.  The
    stanza's event type is never "error", so the emitter's throw for an
    "error" event without listeners cannot happen. *)
Theorem X1_handle_throws_only_what_a_listener_raised h s st e st' :
  _handle h s st = Throw e st' ->
  exists l w, In l (listeners h (category s)) /\
              run l s w = Raises e (world st').
Proof.
  intros Hthrow. rewrite _handle_category in Hthrow. unfold bind in Hthrow.
  destruct (emit h (category s) s st) as [b st1|e1 st1] eqn:Hemit;
    [discriminate Hthrow|].
  injection Hthrow as <- <-.
  destruct (listeners h (category s)) as [|l ls] eqn:Hls.
  - rewrite (emit_no_listeners h s st Hls (category_not_error s)) in Hemit.
    discriminate Hemit.
  - rewrite emit_some_listeners in Hemit by (rewrite Hls; discriminate).
    rewrite Hls in Hemit. unfold bind in Hemit.
    destruct (call_listeners (category s) (l :: ls) s
                (log (Emit (category s) s) st)) as [[] st2|e2 st2] eqn:Hcall;
      [discriminate Hemit|].
    injection Hemit as <- <-.
    exact (call_listeners_throw_origin _ _ _ _ Hcall).
Qed.

(** X2: the function that [message] returns raises nothing of its own:
    when it throws, either the stanza is a message and a listener
    registered for its event type raised that exception, or [next] raised
    it. *)
Theorem X2_stage_throws_only_what_a_callback_raised
    h s (next : Callback World R) st e st' :
  message_stage h s next st = Throw e st' ->
  (is_ s "message" = true /\
   exists l w, In l (listeners h (category s)) /\
               run l s w = Raises e (world st'))
  \/ (exists w, next w = Raises e (world st')).
Proof.
  unfold message_stage. destruct (is_ s "message"); simpl.
  - unfold bind at 1.
    destruct (_handle h s st) as [[] st1|e1 st1] eqn:Hh.
    + unfold bind, call, ret.
      destruct (next (world st1)) as [r w|e2 w] eqn:Hn; [discriminate|].
      intros [= <- <-]. right. exists (world st1). exact Hn.
    + intros [= <- <-]. left. split; [reflexivity|].
      exact (_handle_throw_origin _ _ _ Hh).
  - unfold bind, call, ret.
    destruct (next (world st)) as [r w|e2 w] eqn:Hn; [discriminate|].
    intros [= <- <-]. right. exists (world st). exact Hn.
Qed.

(** X3: for every stanza, whatever the listeners and [next] do, [next] is
    called at most once; it is left out only for a message stanza whose
    dispatch threw. *)
Theorem X3_next_at_most_once h s (next : Callback World R) st :
  proceeds (trace (final (message_stage h s next st))) = proceeds (trace st) + 1
  \/ (proceeds (trace (final (message_stage h s next st))) = proceeds (trace st)
      /\ is_ s "message" = true
      /\ exists e st', _handle h s st = Throw e st').
Proof.
  destruct (_handle_invokes_prefix h s st) as [k [_ Htr]].
  unfold message_stage. destruct (is_ s "message"); simpl.
  - unfold bind.
    destruct (_handle h s st) as [[] st1|e1 st1] eqn:Hh; simpl in Htr.
    + left. unfold call, ret.
      destruct (next (world st1)); simpl; rewrite proceeds_app, Htr,
        proceeds_app; simpl; rewrite proceeds_invocations; lia.
    + right. simpl. split; [|split; [reflexivity|eauto]].
      rewrite Htr, proceeds_app. simpl. rewrite proceeds_invocations. lia.
  - left. unfold bind, call, ret.
    destruct (next (world st)); simpl; rewrite proceeds_app; reflexivity.
Qed.

(** *** The dispatch as a whole *)

Lemma _handle_normal_trace h s st st1 :
  _handle h s st = Normal tt st1 ->
  trace st1 =
  trace st ++ Emit (category s) s
    :: invocations (category s) s (listeners h (category s)).
Proof.
  rewrite _handle_category. unfold bind.
  destruct (listeners h (category s)) as [|l ls] eqn:Hls.
  - rewrite (emit_no_listeners h s st Hls (category_not_error s)).
    unfold ret. intros [= <-]. reflexivity.
  - rewrite emit_some_listeners by (rewrite Hls; discriminate).
    rewrite Hls. unfold bind.
    destruct (call_listeners (category s) (l :: ls) s
                (log (Emit (category s) s) st)) as [[] st2|e2 st2] eqn:Hcall;
      [|discriminate].
    unfold ret. intros [= <-].
    rewrite (call_listeners_normal_trace _ _ _ _ Hcall).
    unfold log. simpl trace. rewrite <- app_assoc. reflexivity.
Qed.

Lemma _handle_returning h s st :
  (forall l w, In l (listeners h (category s)) ->
               exists w', run l s w = Returns tt w') ->
  exists st1, _handle h s st = Normal tt st1.
Proof.
  intros Hret. destruct (_handle h s st) as [[] st1|e st1] eqn:Hh.
  - exists st1. reflexivity.
  - destruct (_handle_throw_origin _ _ _ Hh) as [l [w [Hin Hl]]].
    destruct (Hret l w Hin) as [w' Hw']. congruence.
Qed.

(** X4: when none of the listeners registered for the event type of a
    message stanza raises, the returned function invokes all of them, in
    the order of registration, and only then calls [next], on the state the
    last listener left; it answers [undefined] whatever [next] answers, and
    an exception of [next] escapes. *)
Theorem X4_next_after_all_listeners h s (next : Callback World R) st :
  is_ s "message" = true ->
  (forall l w, In l (listeners h (category s)) ->
               exists w', run l s w = Returns tt w') ->
  exists st1,
    _handle h s st = Normal tt st1
    /\ message_stage h s next st =
       match next (world st1) with
       | Returns _ w =>
           Normal None
             {| world := w;
                trace := trace st ++ Emit (category s) s
                           :: invocations (category s) s
                                (listeners h (category s)) ++ [Proceed] |}
       | Raises e w =>
           Throw e
             {| world := w;
                trace := trace st ++ Emit (category s) s
                           :: invocations (category s) s
                                (listeners h (category s)) ++ [Proceed] |}
       end.
Proof.
  intros Hmsg Hret. destruct (_handle_returning h s st Hret) as [st1 Hh].
  exists st1. split; [exact Hh|].
  rewrite (message_stage_message h s next Hmsg).
  unfold bind. rewrite Hh. unfold call, ret.
  rewrite (_handle_normal_trace _ _ _ Hh).
  destruct (next (world st1)); rewrite <- app_assoc; reflexivity.
Qed.

(** X5: for a message stanza, whatever the callbacks do, the calls the
    returned function makes are: one [emit], then invocations, with that
    stanza, of listeners registered for its event type, a prefix of them in
    the order of registration; [next] is called only when all of them were
    invoked, and last. *)
Theorem X5_stage_trace_shape h s (next : Callback World R) st :
  is_ s "message" = true ->
  exists k, k <= length (listeners h (category s)) /\
    (trace (final (message_stage h s next st)) =
       trace st ++ Emit (category s) s
         :: invocations (category s) s (firstn k (listeners h (category s)))
     \/ (k = length (listeners h (category s)) /\
         trace (final (message_stage h s next st)) =
           trace st ++ Emit (category s) s
             :: invocations (category s) s (listeners h (category s))
                ++ [Proceed])).
Proof.
  intros Hmsg. rewrite (message_stage_message h s next Hmsg).
  unfold bind. destruct (_handle h s st) as [[] st1|e1 st1] eqn:Hh.
  - exists (length (listeners h (category s))). split; [lia|]. right.
    split; [reflexivity|]. unfold call, ret.
    rewrite (_handle_normal_trace _ _ _ Hh).
    destruct (next (world st1)); simpl; rewrite <- app_assoc; reflexivity.
  - destruct (_handle_invokes_prefix h s st) as [k [Hk Htr]].
    rewrite Hh in Htr. exists k. split; [exact Hk|]. left. exact Htr.
Qed.

Lemma category_not_empty s : category s <> "".
Proof.
  unfold category.
  destruct (getChild s "composing"); [discriminate|].
  destruct (getChild s "paused"); [discriminate|].
  destruct (attr s "type") as [t|]; [|discriminate].
  destruct (t =? "") eqn:Ht; [discriminate|].
  destruct (t =? "error"); [discriminate|].
  apply String.eqb_neq. exact Ht.
Qed.

(** X6: [_handle] never emits under "error" nor under the empty string:
    the one event type it emits, and under which it invokes listeners, is
    different from both, so listeners registered for "error" or for the
    empty string are never invoked. *)
Theorem X6_never_error_nor_empty h s st :
  exists c k,
    c <> "error" /\ c <> ""
    /\ emitted (trace (final (_handle h s st))) = emitted (trace st) ++ [c]
    /\ trace (final (_handle h s st)) =
       trace st ++ Emit c s :: invocations c s (firstn k (listeners h c)).
Proof.
  destruct (_handle_invokes_prefix h s st) as [k [_ Htr]].
  exists (category s), k.
  split; [apply category_not_error|].
  split; [apply category_not_empty|].
  split; [apply _handle_emitted | exact Htr].
Qed.

(** X7: a listener registered for an event type other than the stanza's
    does not change how the stanza is handled. *)
Theorem X7_other_types_do_not_interfere
    h s (next : Callback World R) st ty (l : Listener E World) :
  ty <> category s ->
  _handle (on ty l h) s st = _handle h s st
  /\ message_stage (on ty l h) s next st = message_stage h s next st.
Proof.
  intros Hty.
  assert (Hh : _handle (on ty l h) s st = _handle h s st).
  { rewrite !_handle_category. unfold bind, emit.
    rewrite listeners_on. apply String.eqb_neq in Hty. rewrite Hty.
    rewrite app_nil_r. reflexivity. }
  split; [exact Hh|].
  unfold message_stage. destruct (is_ s "message"); simpl; [|reflexivity].
  unfold bind. rewrite Hh. reflexivity.
Qed.


(** *** What a listener can tell from the event type *)

Lemma _handle_emits_iff h s st ty :
  emitted (trace (final (_handle h s st))) = emitted (trace st) ++ [ty]
  <-> category s = ty.
Proof.
  rewrite _handle_emitted. split.
  - intros Heq. apply app_inv_head in Heq. congruence.
  - intros ->. reflexivity.
Qed.

(** The cases of [category], with what decides each. *)
Lemma category_cases s :
  (getChild s "composing" <> None /\ category s = "composing")
  \/ (getChild s "composing" = None /\ getChild s "paused" <> None
      /\ category s = "paused")
  \/ (getChild s "composing" = None /\ getChild s "paused" = None
      /\ (attr s "type" = None \/ attr s "type" = Some "")
      /\ category s = "normal")
  \/ (getChild s "composing" = None /\ getChild s "paused" = None
      /\ attr s "type" = Some "error" /\ category s = "err")
  \/ (getChild s "composing" = None /\ getChild s "paused" = None
      /\ attr s "type" = Some (category s)
      /\ category s <> "" /\ category s <> "error").
Proof.
  unfold category.
  destruct (getChild s "composing"); [left; split; [discriminate|reflexivity]|].
  right.
  destruct (getChild s "paused");
    [left; repeat split; discriminate|].
  right.
  destruct (attr s "type") as [t|]; [|left; repeat split; auto].
  destruct (String.eqb_spec t ""); [subst; left; repeat split; auto|].
  right.
  destruct (String.eqb_spec t "error"); [subst; left; repeat split|].
  right. repeat split; assumption.
Qed.

(** X9: a stanza is emitted under "err" exactly when it has neither a
    "composing" nor a "paused" child and its "type" is "error" or "err". *)
Theorem X9_err_exactly_when h s st :
  emitted (trace (final (_handle h s st))) = emitted (trace st) ++ ["err"]
  <-> (getChild s "composing" = None /\ getChild s "paused" = None
       /\ (attr s "type" = Some "error" \/ attr s "type" = Some "err")).
Proof.
  rewrite _handle_emits_iff.
  destruct (category_cases s) as
    [[Hc Hcat]|[[Hc [Hp Hcat]]|[[Hc [Hp [Ht Hcat]]]|[[Hc [Hp [Ht Hcat]]]|
     [Hc [Hp [Ht [Hne Hnr]]]]]]]].
  - split; [congruence|]. intros [Hc' _]. contradiction.
  - split; [congruence|]. intros [_ [Hp' _]]. contradiction.
  - split; [congruence|]. intros [_ [_ [Ht'|Ht']]]; destruct Ht; congruence.
  - split; [|intros _; exact Hcat]. intros _. auto.
  - split.
    + intros Hcat. rewrite Hcat in Ht. auto.
    + intros [_ [_ [Ht'|Ht']]]; congruence.
Qed.

(** X10: a stanza is emitted under "normal" exactly when it has neither a
    "composing" nor a "paused" child and its "type" is missing, empty, or
    "normal". *)
Theorem X10_normal_exactly_when h s st :
  emitted (trace (final (_handle h s st))) = emitted (trace st) ++ ["normal"]
  <-> (getChild s "composing" = None /\ getChild s "paused" = None
       /\ (attr s "type" = None \/ attr s "type" = Some ""
           \/ attr s "type" = Some "normal")).
Proof.
  rewrite _handle_emits_iff.
  destruct (category_cases s) as
    [[Hc Hcat]|[[Hc [Hp Hcat]]|[[Hc [Hp [Ht Hcat]]]|[[Hc [Hp [Ht Hcat]]]|
     [Hc [Hp [Ht [Hne Hnr]]]]]]]].
  - split; [congruence|]. intros [Hc' _]. contradiction.
  - split; [congruence|]. intros [_ [Hp' _]]. contradiction.
  - split; [|intros _; exact Hcat]. intros _. tauto.
  - split; [congruence|]. intros [_ [_ [Ht'|[Ht'|Ht']]]]; congruence.
  - split.
    + intros Hcat. rewrite Hcat in Ht. auto.
    + intros [_ [_ [Ht'|[Ht'|Ht']]]]; congruence.
Qed.

(** X11: a stanza is emitted under "composing" exactly when it has a
    "composing" child, or has no "paused" child and its "type" is
    "composing"; it is emitted under "paused" exactly when it has no
    "composing" child and has a "paused" child or the "type" "paused". *)
Theorem X11_chat_states_exactly_when h s st :
  (emitted (trace (final (_handle h s st))) = emitted (trace st) ++ ["composing"]
   <-> (getChild s "composing" <> None
        \/ (getChild s "paused" = None /\ attr s "type" = Some "composing")))
  /\ (emitted (trace (final (_handle h s st))) = emitted (trace st) ++ ["paused"]
      <-> (getChild s "composing" = None
           /\ (getChild s "paused" <> None \/ attr s "type" = Some "paused"))).
Proof.
  rewrite !_handle_emits_iff.
  destruct (category_cases s) as
    [[Hc Hcat]|[[Hc [Hp Hcat]]|[[Hc [Hp [Ht Hcat]]]|[[Hc [Hp [Ht Hcat]]]|
     [Hc [Hp [Ht [Hne Hnr]]]]]]]].
  - split; split; try congruence; try tauto.
  - split; split; try congruence; try tauto.
  - split; split; try congruence; destruct Ht; intuition congruence.
  - split; split; try congruence; intuition congruence.
  - split; split.
    + intros Hcat. rewrite Hcat in Ht. auto.
    + intros [Hc'|[_ Ht']]; congruence.
    + intros Hcat. rewrite Hcat in Ht. auto.
    + intros [_ [Hp'|Ht']]; congruence.
Qed.

(** X12: for an event type that is none of "composing", "paused",
    "normal", "err", "error" and the empty string, a stanza is emitted under
    it exactly when it has neither a "composing" nor a "paused" child and
    its "type" is that string. *)
Theorem X12_other_types_exactly_when h s st ty :
  ty <> "composing" -> ty <> "paused" -> ty <> "normal" -> ty <> "err" ->
  ty <> "error" -> ty <> "" ->
  emitted (trace (final (_handle h s st))) = emitted (trace st) ++ [ty]
  <-> (getChild s "composing" = None /\ getChild s "paused" = None
       /\ attr s "type" = Some ty).
Proof.
  intros H1 H2 H3 H4 H5 H6. rewrite _handle_emits_iff.
  destruct (category_cases s) as
    [[Hc Hcat]|[[Hc [Hp Hcat]]|[[Hc [Hp [Ht Hcat]]]|[[Hc [Hp [Ht Hcat]]]|
     [Hc [Hp [Ht [Hne Hnr]]]]]]]].
  - split; [congruence|]. intros [Hc' _]. contradiction.
  - split; [congruence|]. intros [_ [Hp' _]]. contradiction.
  - split; [congruence|]. intros [_ [_ Ht']]. destruct Ht; congruence.
  - split; [congruence|]. intros [_ [_ Ht']]. congruence.
  - split.
    + intros Hcat. rewrite Hcat in Ht. auto.
    + intros [_ [_ Ht']]. congruence.
Qed.

End Consequences.

(** ** The consequences on sample stanzas *)

Section ConsequencesOnSamples.

Import Samples.

Lemma X1_witness :
  _handle failing_then_noting chat start =
    Throw (Error "listener failed")
          {| world := []; trace := [Emit "chat" chat; Invoke "chat" 1 chat] |}
  /\ exists l w,
       In l (listeners failing_then_noting (category chat))
       /\ run l chat w = Raises (Error "listener failed") [].
Proof.
  assert (Hthrow : _handle failing_then_noting chat start =
            Throw (Error "listener failed")
                  {| world := [];
                     trace := [Emit "chat" chat; Invoke "chat" 1 chat] |})
    by reflexivity.
  split; [exact Hthrow|].
  exact (X1_handle_throws_only_what_a_listener_raised
           failing_then_noting chat start Hthrow).
Defined.

Lemma X2_witness :
  message_stage chat_only chat next_failing start =
    Throw (Error "next failed")
          {| world := [1];
             trace := [Emit "chat" chat; Invoke "chat" 1 chat; Proceed] |}
  /\ ((is_ chat "message" = true /\
       exists l w, In l (listeners chat_only (category chat)) /\
                   run l chat w = Raises (Error "next failed") [1])
      \/ (exists w, next_failing w = Raises (Error "next failed") [1])).
Proof.
  assert (Hthrow : message_stage chat_only chat next_failing start =
            Throw (Error "next failed")
                  {| world := [1];
                     trace := [Emit "chat" chat; Invoke "chat" 1 chat;
                               Proceed] |})
    by reflexivity.
  split; [exact Hthrow|].
  exact (X2_stage_throws_only_what_a_callback_raised
           chat_only chat next_failing start Hthrow).
Defined.

Lemma X4_witness :
  is_ chat "message" = true
  /\ (forall l w, In l (listeners two_chat_listeners (category chat)) ->
                  exists w', run l chat w = Returns tt w')
  /\ exists st1,
       _handle two_chat_listeners chat start = Normal tt st1
       /\ message_stage two_chat_listeners chat next_ok start =
          match next_ok (world st1) with
          | Returns _ w =>
              Normal None
                {| world := w;
                   trace := [Emit "chat" chat; Invoke "chat" 1 chat;
                             Invoke "chat" 2 chat; Proceed] |}
          | Raises e w =>
              Throw e
                {| world := w;
                   trace := [Emit "chat" chat; Invoke "chat" 1 chat;
                             Invoke "chat" 2 chat; Proceed] |}
          end.
Proof.
  assert (Hret : forall l w,
             In l (listeners two_chat_listeners (category chat)) ->
             exists w', run l chat w = Returns tt w').
  { intros l w Hin. simpl in Hin.
    destruct Hin as [<-|[<-|[]]]; eexists; reflexivity. }
  split; [reflexivity|]. split; [exact Hret|].
  exact (X4_next_after_all_listeners two_chat_listeners chat next_ok start
           eq_refl Hret).
Defined.

Lemma X5_witness :
  is_ chat "message" = true
  /\ exists k, k <= length (listeners failing_in_the_middle (category chat)) /\
       (trace (final (message_stage failing_in_the_middle chat next_ok start)) =
          trace start ++ Emit "chat" chat
            :: invocations "chat" chat
                 (firstn k (listeners failing_in_the_middle (category chat)))
        \/ (k = length (listeners failing_in_the_middle (category chat)) /\
            trace (final (message_stage failing_in_the_middle chat
                            next_ok start)) =
              trace start ++ Emit "chat" chat
                :: invocations "chat" chat
                     (listeners failing_in_the_middle (category chat))
                   ++ [Proceed])).
Proof.
  split; [reflexivity|].
  exact (X5_stage_trace_shape failing_in_the_middle chat next_ok start
           eq_refl).
Defined.

Lemma X7_witness :
  "headline" <> category chat
  /\ (_handle (on "headline" (noting 2) chat_only) chat start =
        _handle chat_only chat start
      /\ message_stage (on "headline" (noting 2) chat_only) chat next_ok start =
         message_stage chat_only chat next_ok start).
Proof.
  assert (Hne : "headline" <> category chat) by discriminate.
  split; [exact Hne|].
  exact (X7_other_types_do_not_interfere chat_only chat next_ok start
           (noting 2) Hne).
Defined.


Lemma X12_witness :
  "headline" <> "composing" /\ "headline" <> "paused"
  /\ "headline" <> "normal" /\ "headline" <> "err"
  /\ "headline" <> "error" /\ "headline" <> ""
  /\ (emitted (trace (final (_handle chat_and_headline headline start))) =
        emitted (trace start) ++ ["headline"]
      <-> (getChild headline "composing" = None
           /\ getChild headline "paused" = None
           /\ attr headline "type" = Some "headline")).
Proof.
  assert (H1 : "headline" <> "composing") by discriminate.
  assert (H2 : "headline" <> "paused") by discriminate.
  assert (H3 : "headline" <> "normal") by discriminate.
  assert (H4 : "headline" <> "err") by discriminate.
  assert (H5 : "headline" <> "error") by discriminate.
  assert (H6 : "headline" <> "") by discriminate.
  do 6 (split; [assumption|]).
  exact (X12_other_types_exactly_when chat_and_headline headline start
           H1 H2 H3 H4 H5 H6).
Defined.

(** A "type" that spells a chat state reaches the listeners of that chat
    state, and an error stanza with a "composing" child reaches the
    listeners of "composing", not those of "err". *)
Example type_spelling_a_chat_state :
  emitted (trace (final (_handle chat_only composing_type start))) =
    ["composing"]
  /\ emitted (trace (final (_handle chat_only paused_type start))) = ["paused"]
  /\ emitted (trace (final (_handle chat_only normal_type start))) = ["normal"]
  /\ emitted (trace (final (_handle chat_only
                              (Elem "message" [("type", "error")]
                                    [Elem "composing" [] []]) start))) =
     ["composing"].
Proof. repeat split. Qed.

End ConsequencesOnSamples.
